(** * MediaObserver: the activation pipeline of flex-layout

    Shallow embedding of [src/lib/core/media-observer/media-observer.ts].

    The class [MediaObserver] wraps a [MatchMedia] watcher.  Its constructor
    registers the queries of the [BreakPointRegistry] (plus ['print'] when a
    print breakpoint is configured) and builds [media$], an RxJS pipe

      filter(change => change.matches) ; filter(excludeOverlaps) ; map(...)

    RxJS pushes each upstream value through the whole pipe synchronously, so
    an operator is embedded by what it does to ONE value: a partial function
    [A -> option B].  The mutable field [filterOverlaps] is read by the
    closure [excludeOverlaps] each time a value arrives, hence the observer
    is threaded as explicit state through a trace of actions. *)

From Stdlib Require Import ZArith Ascii.
From stdpp Require Import base option list strings.

Local Open Scope string_scope.
Local Open Scope list_scope.

(** ** Data model *)

Module BreakPoint.
(** Modelled from the spec: the [BreakPoint] interface is declared in
    [../breakpoints/break-point], which is not part of the sources at hand.
    Fields follow section 3 of the specification (alias, mediaQuery,
    overlapping, optional priority); the observer reads [mediaQuery] and
    [overlapping] directly. *)
Record t : Type := mk {
  alias : string;
  mediaQuery : string;
  overlapping : bool;
  priority : option Z
}.
End BreakPoint.

Module MediaChange.
(** Modelled from the spec: the [MediaChange] class lives in
    [../media-change].  The observer reads [matches] and [mediaQuery] and
    assigns [mediaQuery]; the usage note of the observer reads [mqAlias];
    the priority is the ordering metadata of section 4.2. *)
Record t : Type := mk {
  matches : bool;
  mediaQuery : string;
  mqAlias : string;
  priority : option Z
}.

(** Modelled from the spec: the constructor of [MediaChange].  A change
    built by the watcher carries [matches] and [mediaQuery] (section 6); its
    alias is initially empty (section 3) and it has no priority. *)
Definition new (matches : bool) (mediaQuery : string) : t :=
  mk matches mediaQuery "" None.

(** The assignment [change.mediaQuery = q] done inside the [map] stage. *)
Definition set_mediaQuery (q : string) (c : t) : t :=
  mk (matches c) q (mqAlias c) (priority c).

(** Modelled from the spec: [clone()], the copy on which the annotation of
    section 4.2 is written.  A copy of a record value is the value. *)
Definition clone (c : t) : t := c.
End MediaChange.

Module BreakPointRegistry.
(** Modelled from the spec: [BreakPointRegistry] lives in
    [../breakpoints/break-point-registry].  Section 4.1: the ordered
    collection [items], read-only once built. *)
Record t : Type := mk { items : list BreakPoint.t }.

(** Modelled from the spec: [findByAlias], the exact lookup on the alias
    of section 4.1; not-found is an ordinary outcome. *)
Definition findByAlias (r : t) (alias : string) : option BreakPoint.t :=
  find (fun bp => String.eqb (BreakPoint.alias bp) alias) (items r).

(** Modelled from the spec: [findByQuery], the exact string lookup on the
    [mediaQuery] field of section 4.1. *)
Definition findByQuery (r : t) (query : string) : option BreakPoint.t :=
  find (fun bp => String.eqb (BreakPoint.mediaQuery bp) query) (items r).

(** Section 3 invariant of the registry: query strings are unique. *)
Definition unique_queries (r : t) : Prop :=
  List.NoDup (map BreakPoint.mediaQuery (items r)).
End BreakPointRegistry.

(** Modelled from the spec: [mergeAlias] lives in [../add-alias].
    Section 4.2: with a breakpoint, its alias, canonical query and priority
    are copied onto (a clone of) the event; without one the event is
    returned unchanged. *)
Definition mergeAlias (dest : MediaChange.t) (source : option BreakPoint.t)
  : MediaChange.t :=
  let dest := MediaChange.clone dest in
  match source with
  | Some bp =>
      MediaChange.mk (MediaChange.matches dest) (BreakPoint.mediaQuery bp)
                     (BreakPoint.alias bp) (BreakPoint.priority bp)
  | None => dest
  end.

Module MatchMedia.
(** Modelled from the spec: the [MatchMedia] watcher of
    [../match-media/match-media] is an external collaborator (section 6).
    Its state is kept abstract: the current synchronous match state of every
    query string, and the log of the query lists handed to [observe]. *)
Record t : Type := mk {
  active : string -> bool;
  observed : list (list string)
}.

(** Modelled from the spec: [isActive(query)], the synchronous current
    match state for a literal query string. *)
Definition isActive (w : t) (query : string) : bool := active w query.

(** Modelled from the spec: [observe(queries)] registers the list; the
    stream it returns is the sequence of raw changes fed to the pipe below. *)
Definition observe (w : t) (queries : list string) : t :=
  mk (active w) (observed w ++ [queries]).
End MatchMedia.

(** The one option of [LayoutConfigOptions] the observer reads.  The field
    is optional in the source ([printWithBreakpoint!]), hence [option]. *)
Record LayoutConfigOptions : Type := {
  printWithBreakpoint : option string
}.

(** JavaScript truthiness of a [string | undefined], as tested by [!!x]:
    [undefined] and the empty string are falsy. *)
Definition truthy (x : option string) : bool :=
  match x with
  | Some s => negb (String.eqb s "")
  | None => false
  end.

(** ** The observer *)

Record MediaObserver : Type := {
  filterOverlaps : bool;
  breakpoints : BreakPointRegistry.t;
  mediaWatcher : MatchMedia.t;
  layoutConfig : LayoutConfigOptions
}.

(** [addPrintListener]: [queries.push('print')] when configured. *)
Definition addPrintListener (cfg : LayoutConfigOptions) (queries : list string)
  : list string :=
  if truthy (printWithBreakpoint cfg) then queries ++ ["print"] else queries.

(** The list [watchActivations] builds and [buildObservable] registers. *)
Definition watchList (reg : BreakPointRegistry.t) (cfg : LayoutConfigOptions)
  : list string :=
  addPrintListener cfg (map BreakPoint.mediaQuery (BreakPointRegistry.items reg)).

(** The constructor: [filterOverlaps = true], and [watchActivations()] runs
    once, calling [mediaWatcher.observe] eagerly (only the pipe is lazy). *)
Definition new (breakpoints : BreakPointRegistry.t) (mediaWatcher : MatchMedia.t)
    (layoutConfig : LayoutConfigOptions) : MediaObserver :=
  {| filterOverlaps := true;
     breakpoints := breakpoints;
     mediaWatcher := MatchMedia.observe mediaWatcher (watchList breakpoints layoutConfig);
     layoutConfig := layoutConfig |}.

(** [toMediaQuery]: [findByAlias(query) || findByQuery(query)], then the
    breakpoint's query or the argument itself. *)
Definition toMediaQuery (o : MediaObserver) (query : string) : string :=
  let locator := breakpoints o in
  let bp :=
    match BreakPointRegistry.findByAlias locator query with
    | Some bp => Some bp
    | None => BreakPointRegistry.findByQuery locator query
    end in
  match bp with
  | Some bp => BreakPoint.mediaQuery bp
  | None => query
  end.

Definition isActive (o : MediaObserver) (alias : string) : bool :=
  MatchMedia.isActive (mediaWatcher o) (toMediaQuery o alias).

(** *** RxJS operators, one value at a time *)

Definition rx_filter {A : Type} (p : A -> bool) (a : A) : option A :=
  if p a then Some a else None.

(** The closure [excludeOverlaps] of [buildObservable]; it reads
    [this.filterOverlaps] when it is called. *)
Definition excludeOverlaps (o : MediaObserver) (change : MediaChange.t) : bool :=
  match BreakPointRegistry.findByQuery (breakpoints o) (MediaChange.mediaQuery change) with
  | None => true
  | Some bp => negb (filterOverlaps o && BreakPoint.overlapping bp)
  end.

(** The breakpoint chosen by the [map] callback. [findByAlias(undefined)]
    finds nothing, aliases being strings. *)
Definition locate (o : MediaObserver) (change : MediaChange.t) : option BreakPoint.t :=
  if String.eqb (MediaChange.mediaQuery change) "print"
  then printWithBreakpoint (layoutConfig o) ≫= BreakPointRegistry.findByAlias (breakpoints o)
  else BreakPointRegistry.findByQuery (breakpoints o) (MediaChange.mediaQuery change).

(** The [map] callback.  It assigns [change.mediaQuery] on the object it
    was handed and returns the clone made by [mergeAlias]: the first
    component is the upstream object after the call, the second the value
    passed downstream. *)
Definition project (o : MediaObserver) (change : MediaChange.t)
  : MediaChange.t * MediaChange.t :=
  let bp := locate o change in
  let change :=
    match bp with
    | Some bp => MediaChange.set_mediaQuery (BreakPoint.mediaQuery bp) change
    | None => change
    end in
  (change, mergeAlias change bp).

(** One raw change pushed through [media$]: what a subscriber receives. *)
Definition media_next (o : MediaObserver) (change : MediaChange.t)
  : option MediaChange.t :=
  rx_filter MediaChange.matches change ≫= fun change =>
  rx_filter (excludeOverlaps o) change ≫= fun change =>
  Some (snd (project o change)).

(** *** Traces *)

(** What can happen to a constructed observer: the application assigns
    [filterOverlaps], or the watcher delivers a raw change. *)
Inductive Action : Type :=
| SetFilterOverlaps (b : bool)
| Next (change : MediaChange.t).

Definition set_filterOverlaps (b : bool) (o : MediaObserver) : MediaObserver :=
  {| filterOverlaps := b;
     breakpoints := breakpoints o;
     mediaWatcher := mediaWatcher o;
     layoutConfig := layoutConfig o |}.

(** One action: the new observer and the values emitted to a subscriber. *)
Definition step (o : MediaObserver) (a : Action) : MediaObserver * list MediaChange.t :=
  match a with
  | SetFilterOverlaps b => (set_filterOverlaps b o, [])
  | Next change => (o, option_list (media_next o change))
  end.

Fixpoint run (o : MediaObserver) (acts : list Action)
  : MediaObserver * list MediaChange.t :=
  match acts with
  | [] => (o, [])
  | a :: acts =>
      let '(o1, out1) := step o a in
      let '(o2, out2) := run o1 acts in
      (o2, out1 ++ out2)
  end.

Definition emitted (o : MediaObserver) (acts : list Action) : list MediaChange.t :=
  snd (run o acts).

(** The raw changes of a trace, in order of arrival. *)
Definition changes (acts : list Action) : list MediaChange.t :=
  omap (fun a => match a with Next c => Some c | SetFilterOverlaps _ => None end) acts.

(** ** Concrete registries used to run the model *)

Module Samples.
Definition xs : BreakPoint.t := BreakPoint.mk "xs" "(max-width:599px)" false None.
Definition sm : BreakPoint.t := BreakPoint.mk "sm" "(min-width:600px)" false None.
Definition gt_xs : BreakPoint.t := BreakPoint.mk "gt-xs" "(min-width:600px) and (max-width:5000px)" true None.
Definition gt_sm : BreakPoint.t := BreakPoint.mk "gt-sm" "(min-width:960px)" true (Some 7%Z).

(** A custom breakpoint whose media query is the string ['print']. *)
Definition paper : BreakPoint.t := BreakPoint.mk "paper" "print" false None.
Definition paper_wide : BreakPoint.t := BreakPoint.mk "paper" "print" true None.

Definition registry : BreakPointRegistry.t := BreakPointRegistry.mk [xs; sm; gt_xs; gt_sm].
Definition registry_paper : BreakPointRegistry.t := BreakPointRegistry.mk [xs; sm; paper].
Definition registry_paper_wide : BreakPointRegistry.t := BreakPointRegistry.mk [xs; sm; paper_wide].

Definition watcher : MatchMedia.t :=
  MatchMedia.mk (fun q => String.eqb q "(min-width:600px)") [].

Definition no_print : LayoutConfigOptions := {| printWithBreakpoint := None |}.
Definition print_sm : LayoutConfigOptions := {| printWithBreakpoint := Some "sm" |}.
Definition print_gt_sm : LayoutConfigOptions := {| printWithBreakpoint := Some "gt-sm" |}.
Definition print_unknown : LayoutConfigOptions := {| printWithBreakpoint := Some "tablet" |}.
Definition print_empty : LayoutConfigOptions := {| printWithBreakpoint := Some "" |}.
End Samples.

(** ** Specification-side notions *)

(** The resolution of [isActive]'s argument as the specification words it:
    alias lookup first, then the argument taken as a registered query, and
    the literal string when neither lookup answers. *)
Definition resolve (reg : BreakPointRegistry.t) (x : string) : string :=
  match BreakPointRegistry.findByAlias reg x with
  | Some bp => BreakPoint.mediaQuery bp
  | None =>
      match BreakPointRegistry.findByQuery reg x with
      | Some bp => BreakPoint.mediaQuery bp
      | None => x
      end
  end.

(** A print breakpoint is configured: the option holds a non-empty alias. *)
Definition print_configured (cfg : LayoutConfigOptions) : Prop :=
  exists a : string, printWithBreakpoint cfg = Some a /\ a <> "".

(** The print substitution applies to a change: its query is the literal
    ['print'] and the configured alias resolves in the registry. *)
Definition print_substituted (o : MediaObserver) (change : MediaChange.t) : Prop :=
  MediaChange.mediaQuery change = "print"
  /\ is_Some (printWithBreakpoint (layoutConfig o)
               ≫= BreakPointRegistry.findByAlias (breakpoints o)).

(** [e] is what the pipe of [o] makes of the raw change [c], for some value
    of the flag. *)
Definition image_of (o : MediaObserver) (c e : MediaChange.t) : Prop :=
  exists b : bool, media_next (set_filterOverlaps b o) c = Some e.

(** ** Conditions on a registry *)

(** Section 3 invariant of the registry: aliases are unique. *)
Definition unique_aliases (reg : BreakPointRegistry.t) : Prop :=
  List.NoDup (map BreakPoint.alias (BreakPointRegistry.items reg)).

(** No alias of the registry is also the media query of a registered
    breakpoint. *)
Definition aliases_apart_from_queries (reg : BreakPointRegistry.t) : Prop :=
  forall bp bp' : BreakPoint.t,
    In bp (BreakPointRegistry.items reg) ->
    In bp' (BreakPointRegistry.items reg) ->
    BreakPoint.alias bp <> BreakPoint.mediaQuery bp'.

(** No registered breakpoint is marked [overlapping]. *)
Definition no_overlapping (reg : BreakPointRegistry.t) : Prop :=
  Forall (fun bp => BreakPoint.overlapping bp = false) (BreakPointRegistry.items reg).

(** The activation announced for a breakpoint: what [mergeAlias] returns
    for a change with [matches = true] and that breakpoint. *)
Definition announcement (bp : BreakPoint.t) : MediaChange.t :=
  MediaChange.mk true (BreakPoint.mediaQuery bp) (BreakPoint.alias bp)
                 (BreakPoint.priority bp).

Module MoreSamples.
(** A registry of bounded ranges only. *)
Definition registry_plain : BreakPointRegistry.t :=
  BreakPointRegistry.mk [Samples.xs; Samples.sm].

(** A registry in which the alias ["b"] is also the query of ["a"]. *)
Definition registry_chain : BreakPointRegistry.t :=
  BreakPointRegistry.mk [BreakPoint.mk "a" "b" false None;
                         BreakPoint.mk "b" "c" false None].
End MoreSamples.

(** ** Surface forms of a query *)

(** A query with its blanks removed. *)
Fixpoint strip_blanks (s : string) : string :=
  match s with
  | EmptyString => EmptyString
  | String a s' =>
      if Ascii.eqb a " "%char then strip_blanks s' else String a (strip_blanks s')
  end.

(** Two strings that differ only in blanks are two surface forms of one
    media query, such as ["(min-width: 600px)"] and ["(min-width:600px)"]. *)
Definition same_query_up_to_blanks (q q' : string) : Prop :=
  strip_blanks q = strip_blanks q'.

(** ** Several subscriptions *)

(** One subscription's pass over the object the watcher pushes: the object
    as the pass leaves it (the [map] callback assigns [mediaQuery] on it),
    and what the subscriber receives. *)
Definition media_pass (o : MediaObserver) (change : MediaChange.t)
  : MediaChange.t * option MediaChange.t :=
  if MediaChange.matches change then
    if excludeOverlaps o change then
      let '(change', e) := project o change in (change', Some e)
    else (change, None)
  else (change, None).

(** Modelled from the spec: the stream [MatchMedia.observe] returns is
    multicast (sections 4.3 and 6; [MatchMedia] is not under [src/]): one
    change object is pushed to every subscription of [media$] in turn, and
    each subscription runs its own copy of the pipe on that same object.
    The result lists what each subscription receives, in order. *)
Fixpoint multicast (o : MediaObserver) (subscriptions : nat) (change : MediaChange.t)
  : list (option MediaChange.t) :=
  match subscriptions with
  | O => []
  | S n =>
      let '(change', out) := media_pass o change in
      out :: multicast o n change'
  end.

Module Variants.
(** Two breakpoints registered with one and the same media query. *)
Definition tablet : BreakPoint.t := BreakPoint.mk "tablet" "(min-width:600px)" false None.
Definition registry_twins : BreakPointRegistry.t :=
  BreakPointRegistry.mk [Samples.sm; tablet].

Definition print_paper : LayoutConfigOptions := {| printWithBreakpoint := Some "paper" |}.
End Variants.

(** ** Lookups *)

Lemma findByQuery_Some (reg : BreakPointRegistry.t) (q : string) (bp : BreakPoint.t) :
  BreakPointRegistry.findByQuery reg q = Some bp ->
  In bp (BreakPointRegistry.items reg) /\ BreakPoint.mediaQuery bp = q.
Proof.
  unfold BreakPointRegistry.findByQuery. intros H.
  apply find_some in H as [Hin Heq]. split; [exact Hin|].
  now apply String.eqb_eq.
Qed.

Lemma findByAlias_Some (reg : BreakPointRegistry.t) (a : string) (bp : BreakPoint.t) :
  BreakPointRegistry.findByAlias reg a = Some bp ->
  In bp (BreakPointRegistry.items reg) /\ BreakPoint.alias bp = a.
Proof.
  unfold BreakPointRegistry.findByAlias. intros H.
  apply find_some in H as [Hin Heq]. split; [exact Hin|].
  now apply String.eqb_eq.
Qed.

(** With unique query strings, a registered breakpoint is the one its own
    query resolves to. *)
Lemma findByQuery_registered (reg : BreakPointRegistry.t) (B : BreakPoint.t) :
  BreakPointRegistry.unique_queries reg ->
  In B (BreakPointRegistry.items reg) ->
  BreakPointRegistry.findByQuery reg (BreakPoint.mediaQuery B) = Some B.
Proof.
  unfold BreakPointRegistry.unique_queries, BreakPointRegistry.findByQuery.
  destruct reg as [l]; simpl.
  induction l as [|bp l IH]; intros Hnd Hin; [destruct Hin|].
  simpl in Hnd. apply List.NoDup_cons_iff in Hnd as [Hnotin Hnd].
  simpl. destruct Hin as [->|Hin].
  - now rewrite String.eqb_refl.
  - destruct (String.eqb_spec (BreakPoint.mediaQuery bp) (BreakPoint.mediaQuery B)) as [Heq|Hne].
    + exfalso. apply Hnotin. rewrite Heq. now apply in_map.
    + now apply IH.
Qed.

(** ** Traces: structural facts *)

Lemma step_fields (o : MediaObserver) (a : Action) :
  breakpoints (fst (step o a)) = breakpoints o
  /\ mediaWatcher (fst (step o a)) = mediaWatcher o
  /\ layoutConfig (fst (step o a)) = layoutConfig o.
Proof. destruct a; simpl; auto. Qed.

Lemma run_cons (o : MediaObserver) (a : Action) (acts : list Action) :
  run o (a :: acts) =
  (fst (run (fst (step o a)) acts), snd (step o a) ++ snd (run (fst (step o a)) acts)).
Proof.
  simpl. destruct (step o a) as [o1 out1]. simpl.
  now destruct (run o1 acts) as [o2 out2].
Qed.

Lemma run_fields (acts : list Action) (o : MediaObserver) :
  breakpoints (fst (run o acts)) = breakpoints o
  /\ mediaWatcher (fst (run o acts)) = mediaWatcher o
  /\ layoutConfig (fst (run o acts)) = layoutConfig o.
Proof.
  revert o. induction acts as [|a acts IH]; intros o; [simpl; auto|].
  rewrite run_cons. simpl.
  destruct (IH (fst (step o a))) as (Hb & Hw & Hc).
  destruct (step_fields o a) as (Hb' & Hw' & Hc').
  repeat split; congruence.
Qed.

Lemma run_app (acts1 acts2 : list Action) (o : MediaObserver) :
  run o (acts1 ++ acts2) =
  (fst (run (fst (run o acts1)) acts2),
   snd (run o acts1) ++ snd (run (fst (run o acts1)) acts2)).
Proof.
  revert o. induction acts1 as [|a acts1 IH]; intros o.
  - simpl. now destruct (run o acts2).
  - rewrite <- app_comm_cons, !run_cons, IH. simpl. now rewrite app_assoc.
Qed.

Lemma emitted_app (o : MediaObserver) (acts1 acts2 : list Action) :
  emitted o (acts1 ++ acts2) = emitted o acts1 ++ emitted (fst (run o acts1)) acts2.
Proof. unfold emitted. now rewrite run_app. Qed.

Lemma emitted_cons (o : MediaObserver) (a : Action) (acts : list Action) :
  emitted o (a :: acts) = snd (step o a) ++ emitted (fst (step o a)) acts.
Proof. unfold emitted. now rewrite run_cons. Qed.

(** ** The stages of the pipe *)

Lemma mergeAlias_matches (c : MediaChange.t) (bp : option BreakPoint.t) :
  MediaChange.matches (mergeAlias c bp) = MediaChange.matches c.
Proof. now destruct bp. Qed.

Lemma project_matches (o : MediaObserver) (c : MediaChange.t) :
  MediaChange.matches (snd (project o c)) = MediaChange.matches c.
Proof.
  unfold project. simpl. rewrite mergeAlias_matches. now destruct (locate o c).
Qed.

(** What the [map] stage passes on, by the breakpoint it located. *)
Lemma project_located (o : MediaObserver) (c : MediaChange.t) (bp : BreakPoint.t) :
  locate o c = Some bp ->
  snd (project o c) =
  MediaChange.mk (MediaChange.matches c) (BreakPoint.mediaQuery bp)
                 (BreakPoint.alias bp) (BreakPoint.priority bp).
Proof. unfold project. now intros ->. Qed.

Lemma project_not_located (o : MediaObserver) (c : MediaChange.t) :
  locate o c = None -> project o c = (c, c).
Proof. unfold project. now intros ->. Qed.

(** The in-place assignment: the upstream object leaves the [map] stage
    with the canonical query of the located breakpoint. *)
Lemma project_mutates_source (o : MediaObserver) (c : MediaChange.t) (bp : BreakPoint.t) :
  locate o c = Some bp ->
  fst (project o c) = MediaChange.set_mediaQuery (BreakPoint.mediaQuery bp) c.
Proof. unfold project. now intros ->. Qed.

Lemma media_next_unfold (o : MediaObserver) (c : MediaChange.t) :
  media_next o c =
  if MediaChange.matches c
  then if excludeOverlaps o c then Some (snd (project o c)) else None
  else None.
Proof.
  unfold media_next, rx_filter.
  destruct (MediaChange.matches c); [|reflexivity]. simpl.
  now destruct (excludeOverlaps o c).
Qed.

Lemma media_next_Some (o : MediaObserver) (c e : MediaChange.t) :
  media_next o c = Some e ->
  MediaChange.matches c = true /\ excludeOverlaps o c = true /\ e = snd (project o c).
Proof.
  rewrite media_next_unfold.
  destruct (MediaChange.matches c); [|discriminate].
  destruct (excludeOverlaps o c); [|discriminate].
  intros [= <-]. auto.
Qed.

Lemma locate_not_print (o : MediaObserver) (c : MediaChange.t) :
  MediaChange.mediaQuery c <> "print" ->
  locate o c = BreakPointRegistry.findByQuery (breakpoints o) (MediaChange.mediaQuery c).
Proof.
  intros Hne. unfold locate.
  now destruct (String.eqb_spec (MediaChange.mediaQuery c) "print").
Qed.

Lemma locate_print (o : MediaObserver) (c : MediaChange.t) :
  MediaChange.mediaQuery c = "print" ->
  locate o c =
  printWithBreakpoint (layoutConfig o) ≫= BreakPointRegistry.findByAlias (breakpoints o).
Proof. intros Heq. unfold locate. now rewrite Heq. Qed.

(** ** Activations only *)

(** C1. A raw change with [matches = false] makes [media$] emit nothing,
    whatever the state of the observer, and every value emitted along any
    trace of actions has [matches = true]. *)
Theorem media_emits_activations_only (o : MediaObserver) :
  (forall change : MediaChange.t,
      MediaChange.matches change = false ->
      media_next o change = None /\ snd (step o (Next change)) = [])
  /\ (forall acts : list Action,
        Forall (fun e => MediaChange.matches e = true) (emitted o acts)).
Proof.
  split.
  - intros change Hm. simpl. rewrite media_next_unfold, Hm. auto.
  - intros acts. revert o. induction acts as [|a acts IH]; intros o.
    + constructor.
    + rewrite emitted_cons. apply Forall_app. split; [|apply IH].
      destruct a as [b|c]; simpl; [constructor|].
      destruct (media_next o c) as [e|] eqn:He; simpl; constructor; [|constructor].
      apply media_next_Some in He as (Hm & _ & ->).
      now rewrite project_matches.
Qed.

Lemma media_emits_activations_only_witness :
  media_next (new Samples.registry Samples.watcher Samples.no_print)
             (MediaChange.new false "(min-width:600px)") = None
  /\ emitted (new Samples.registry Samples.watcher Samples.no_print)
       [Next (MediaChange.new true "(min-width:600px)");
        Next (MediaChange.new false "(min-width:600px)");
        Next (MediaChange.new true "(max-width:599px)")]
     = [MediaChange.mk true "(min-width:600px)" "sm" None;
        MediaChange.mk true "(max-width:599px)" "xs" None].
Proof.
  split; [|reflexivity].
  apply (media_emits_activations_only
           (new Samples.registry Samples.watcher Samples.no_print)).
  reflexivity.
Defined.

(** ** The overlap filter *)

Lemma excludeOverlaps_found (o : MediaObserver) (c : MediaChange.t) (bp : BreakPoint.t) :
  BreakPointRegistry.findByQuery (breakpoints o) (MediaChange.mediaQuery c) = Some bp ->
  excludeOverlaps o c = negb (filterOverlaps o && BreakPoint.overlapping bp).
Proof. unfold excludeOverlaps. now intros ->. Qed.

Lemma excludeOverlaps_not_found (o : MediaObserver) (c : MediaChange.t) :
  BreakPointRegistry.findByQuery (breakpoints o) (MediaChange.mediaQuery c) = None ->
  excludeOverlaps o c = true.
Proof. unfold excludeOverlaps. now intros ->. Qed.

(** C2, as stated, fails.  In a registry where a breakpoint ["paper"] with
    [overlapping = true] has the media query ['print'], and with
    [printWithBreakpoint = "sm"], an activation of ['print'] resolves via
    [findByQuery] to ["paper"]; with [filterOverlaps = false] the one value
    emitted carries the alias ["sm"], not ["paper"]. *)
Lemma overlap_alias_counterexample :
  let o := set_filterOverlaps false
             (new Samples.registry_paper_wide Samples.watcher Samples.print_sm) in
  let change := MediaChange.new true "print" in
  BreakPointRegistry.findByQuery (breakpoints o) (MediaChange.mediaQuery change)
    = Some Samples.paper_wide
  /\ BreakPoint.overlapping Samples.paper_wide = true
  /\ filterOverlaps o = false
  /\ emitted o [Next change] = [MediaChange.mk true "(min-width:600px)" "sm" None]
  /\ ~ (exists e, emitted o [Next change] = [e]
                  /\ MediaChange.mqAlias e = BreakPoint.alias Samples.paper_wide).
Proof.
  repeat split; try reflexivity.
  intros (e & He & Ha). vm_compute in He. injection He as <-. discriminate Ha.
Qed.

(** C2 (amended).  For a raw activation whose query resolves via
    [findByQuery] to a breakpoint with [overlapping = true]: the flag is
    [true] after construction; with the flag [true] when the change is
    processed nothing is emitted; with the flag [false] exactly one value is
    emitted, and it carries that breakpoint's alias when the query is not
    the literal ['print'].  The flag is read per change: in a trace that
    toggles it, only the change processed while it is [false] is emitted. *)
Theorem overlap_filter_follows_flag
    (o : MediaObserver) (change : MediaChange.t) (bp : BreakPoint.t) :
  MediaChange.matches change = true ->
  BreakPointRegistry.findByQuery (breakpoints o) (MediaChange.mediaQuery change) = Some bp ->
  BreakPoint.overlapping bp = true ->
  filterOverlaps (new (breakpoints o) (mediaWatcher o) (layoutConfig o)) = true
  /\ emitted o [SetFilterOverlaps true; Next change] = []
  /\ exists e : MediaChange.t,
       emitted o [SetFilterOverlaps false; Next change] = [e]
       /\ emitted o [SetFilterOverlaps true; Next change;
                     SetFilterOverlaps false; Next change;
                     SetFilterOverlaps true; Next change] = [e]
       /\ (MediaChange.mediaQuery change <> "print" ->
           MediaChange.mqAlias e = BreakPoint.alias bp).
Proof.
  intros Hm Hq Hov.
  assert (Hon : media_next (set_filterOverlaps true o) change = None).
  { rewrite media_next_unfold, Hm, (excludeOverlaps_found _ _ bp) by exact Hq.
    simpl. now rewrite Hov. }
  assert (Hoff : media_next (set_filterOverlaps false o) change
                 = Some (snd (project (set_filterOverlaps false o) change))).
  { rewrite media_next_unfold, Hm, (excludeOverlaps_found _ _ bp) by exact Hq.
    reflexivity. }
  split; [reflexivity|]. split.
  - unfold emitted. simpl. now rewrite Hon.
  - exists (snd (project (set_filterOverlaps false o) change)). repeat split.
    + unfold emitted. simpl. now rewrite Hoff.
    + unfold emitted. simpl.
      change (set_filterOverlaps true (set_filterOverlaps false (set_filterOverlaps true o)))
        with (set_filterOverlaps true o).
      change (set_filterOverlaps false (set_filterOverlaps true o))
        with (set_filterOverlaps false o).
      now rewrite Hon, Hoff.
    + intros Hne.
      rewrite (project_located _ _ bp); [reflexivity|].
      rewrite locate_not_print by exact Hne. exact Hq.
Qed.

Lemma overlap_filter_follows_flag_witness :
  emitted (new Samples.registry Samples.watcher Samples.no_print)
          [SetFilterOverlaps true; Next (MediaChange.new true "(min-width:960px)")] = []
  /\ exists e : MediaChange.t,
       emitted (new Samples.registry Samples.watcher Samples.no_print)
               [SetFilterOverlaps false; Next (MediaChange.new true "(min-width:960px)")] = [e]
       /\ MediaChange.mqAlias e = "gt-sm".
Proof.
  destruct (overlap_filter_follows_flag
              (new Samples.registry Samples.watcher Samples.no_print)
              (MediaChange.new true "(min-width:960px)") Samples.gt_sm
              eq_refl eq_refl eq_refl) as (_ & Hdrop & e & Hone & _ & Halias).
  split; [exact Hdrop|].
  exists e. split; [exact Hone|]. apply Halias. discriminate.
Defined.

(** ** Alias injection *)

(** C3, as stated, fails, in three ways.
    (1) Surface form.  The lookup is an exact string match: the activation
    of ["(min-width: 600px)"], which differs from the stored query of ["sm"]
    by one blank, survives the overlap filter and is emitted with an empty
    alias and the raw string, not with ["sm"] and the stored query.
    (2) A registered breakpoint ["paper"] whose media query is ['print'] is
    not announced under its own alias: with [printWithBreakpoint = "sm"]
    its activation is emitted with the alias and the query of ["sm"].
    (3) Where two breakpoints are registered with one query, the activation
    of the second one's query is emitted with the alias of the first. *)
Lemma registered_activation_counterexample :
  (let o := new Samples.registry Samples.watcher Samples.no_print in
   let B := Samples.sm in
   let change := MediaChange.new true "(min-width: 600px)" in
   In B (BreakPointRegistry.items (breakpoints o))
   /\ same_query_up_to_blanks (MediaChange.mediaQuery change) (BreakPoint.mediaQuery B)
   /\ excludeOverlaps o change = true
   /\ media_next o change = Some (MediaChange.mk true "(min-width: 600px)" "" None)
   /\ ~ (exists e, media_next o change = Some e
                   /\ MediaChange.mqAlias e = BreakPoint.alias B
                   /\ MediaChange.mediaQuery e = BreakPoint.mediaQuery B))
  /\ (let o := new Samples.registry_paper Samples.watcher Samples.print_sm in
      let B := Samples.paper in
      let change := MediaChange.new true (BreakPoint.mediaQuery B) in
      In B (BreakPointRegistry.items (breakpoints o))
      /\ excludeOverlaps o change = true
      /\ media_next o change = Some (MediaChange.mk true "(min-width:600px)" "sm" None)
      /\ ~ (exists e, media_next o change = Some e
                      /\ MediaChange.mqAlias e = BreakPoint.alias B
                      /\ MediaChange.mediaQuery e = BreakPoint.mediaQuery B))
  /\ (let o := new Variants.registry_twins Samples.watcher Samples.no_print in
      let B := Variants.tablet in
      let change := MediaChange.new true (BreakPoint.mediaQuery B) in
      In B (BreakPointRegistry.items (breakpoints o))
      /\ excludeOverlaps o change = true
      /\ media_next o change = Some (MediaChange.mk true "(min-width:600px)" "sm" None)
      /\ ~ (exists e, media_next o change = Some e
                      /\ MediaChange.mqAlias e = BreakPoint.alias B
                      /\ MediaChange.mediaQuery e = BreakPoint.mediaQuery B)).
Proof.
  split; [|split].
  - split; [simpl; auto|]. split; [reflexivity|]. split; [reflexivity|].
    split; [reflexivity|].
    intros (e & He & Ha & _). vm_compute in He. injection He as <-. discriminate Ha.
  - split; [simpl; auto|]. split; [reflexivity|]. split; [reflexivity|].
    intros (e & He & Ha & _). vm_compute in He. injection He as <-. discriminate Ha.
  - split; [simpl; auto|]. split; [reflexivity|]. split; [reflexivity|].
    intros (e & He & Ha & _). vm_compute in He. injection He as <-. discriminate Ha.
Qed.

(** C3 (amended).  Let [B] be a breakpoint that the registry returns for
    its own media query (every registered breakpoint, when query strings
    are unique), that query not being the literal ['print'].  An activation
    that survives the overlap filter is emitted with [B]'s alias and stored
    query when its raw query string is [B.mediaQuery] character for
    character, whatever else the raw change carries.  No other surface form
    is brought to the stored one: for any other raw string (['print']
    apart) the value emitted keeps the raw string, and when that string is
    not a registry query the change is emitted as it arrived, alias
    included. *)
Theorem registered_activation_is_annotated
    (o : MediaObserver) (B : BreakPoint.t) (change : MediaChange.t) :
  BreakPointRegistry.findByQuery (breakpoints o) (BreakPoint.mediaQuery B) = Some B ->
  BreakPoint.mediaQuery B <> "print" ->
  MediaChange.matches change = true ->
  excludeOverlaps o change = true ->
  In B (BreakPointRegistry.items (breakpoints o))
  /\ (MediaChange.mediaQuery change = BreakPoint.mediaQuery B ->
      media_next o change =
      Some (MediaChange.mk true (BreakPoint.mediaQuery B) (BreakPoint.alias B)
                           (BreakPoint.priority B)))
  /\ (MediaChange.mediaQuery change <> BreakPoint.mediaQuery B ->
      MediaChange.mediaQuery change <> "print" ->
      exists e : MediaChange.t,
        media_next o change = Some e
        /\ MediaChange.mediaQuery e = MediaChange.mediaQuery change
        /\ MediaChange.mediaQuery e <> BreakPoint.mediaQuery B
        /\ (BreakPointRegistry.findByQuery (breakpoints o) (MediaChange.mediaQuery change)
            = None -> e = change)).
Proof.
  intros HB Hnp Hm Hex.
  split; [now destruct (findByQuery_Some _ _ _ HB)|]. split.
  - intros Hq.
    rewrite media_next_unfold, Hm, Hex.
    rewrite (project_located _ _ B), Hm; [reflexivity|].
    rewrite locate_not_print by (now rewrite Hq).
    now rewrite Hq.
  - intros Hne Hnprint.
    exists (snd (project o change)).
    pose proof (locate_not_print o change Hnprint) as Hloc.
    split; [now rewrite media_next_unfold, Hm, Hex|].
    destruct (BreakPointRegistry.findByQuery (breakpoints o) (MediaChange.mediaQuery change))
      as [bp|] eqn:Hq.
    + destruct (findByQuery_Some _ _ _ Hq) as [_ Hbq].
      rewrite (project_located _ _ bp) by exact Hloc. simpl.
      split; [exact Hbq|]. split; [now rewrite Hbq|discriminate].
    + rewrite project_not_located by exact Hloc. simpl. auto.
Qed.

Lemma registered_activation_is_annotated_witness :
  media_next (set_filterOverlaps false
                (new Samples.registry Samples.watcher Samples.print_sm))
             (MediaChange.mk true "(min-width:960px)" "stale" (Some 1%Z))
  = Some (MediaChange.mk true "(min-width:960px)" "gt-sm" (Some 7%Z))
  /\ exists e : MediaChange.t,
       media_next (set_filterOverlaps false
                     (new Samples.registry Samples.watcher Samples.print_sm))
                  (MediaChange.new true "(min-width: 960px)") = Some e
       /\ MediaChange.mediaQuery e = "(min-width: 960px)".
Proof.
  split.
  - apply (registered_activation_is_annotated
             (set_filterOverlaps false
                (new Samples.registry Samples.watcher Samples.print_sm))
             Samples.gt_sm
             (MediaChange.mk true "(min-width:960px)" "stale" (Some 1%Z))
             eq_refl ltac:(discriminate) eq_refl eq_refl).
    reflexivity.
  - destruct (registered_activation_is_annotated
                (set_filterOverlaps false
                   (new Samples.registry Samples.watcher Samples.print_sm))
                Samples.gt_sm
                (MediaChange.new true "(min-width: 960px)")
                eq_refl ltac:(discriminate) eq_refl eq_refl) as (_ & _ & Hother).
    destruct (Hother ltac:(discriminate) ltac:(discriminate)) as (e & He & Hq & _).
    exists e. split; [exact He|exact Hq].
Defined.

(** ** The print query *)

(** C4, as stated, fails.  With [printWithBreakpoint = "sm"] and ["sm"]
    registered, an activation of ['print'] is not emitted when a registered
    overlapping breakpoint has the media query ['print'] and the flag has
    its initial value: the overlap filter drops it ahead of the [map]. *)
Lemma print_dropped_counterexample :
  let o := new Samples.registry_paper_wide Samples.watcher Samples.print_sm in
  printWithBreakpoint (layoutConfig o) = Some "sm"
  /\ BreakPointRegistry.findByAlias (breakpoints o) "sm" = Some Samples.sm
  /\ BreakPoint.mediaQuery Samples.sm = "(min-width:600px)"
  /\ media_next o (MediaChange.new true "print") = None
  /\ emitted o [Next (MediaChange.new true "print")] = [].
Proof. repeat split; reflexivity. Qed.

(** C4 (amended).  When [printWithBreakpoint] is an alias the registry
    resolves, an activation of the literal query ['print'] that passes the
    overlap filter is emitted with the stored query of that breakpoint and
    with the configured alias; the breakpoint is the one [findByAlias]
    returns for the configured alias, whatever [findByQuery] answers for
    ['print']. *)
Theorem print_reported_as_configured_breakpoint
    (o : MediaObserver) (change : MediaChange.t) (a : string) (bp : BreakPoint.t) :
  printWithBreakpoint (layoutConfig o) = Some a ->
  BreakPointRegistry.findByAlias (breakpoints o) a = Some bp ->
  MediaChange.mediaQuery change = "print" ->
  MediaChange.matches change = true ->
  excludeOverlaps o change = true ->
  locate o change = BreakPointRegistry.findByAlias (breakpoints o) a
  /\ media_next o change =
     Some (MediaChange.mk true (BreakPoint.mediaQuery bp) a (BreakPoint.priority bp)).
Proof.
  intros Hcfg Ha Hq Hm Hex.
  assert (Hloc : locate o change = Some bp).
  { rewrite locate_print by exact Hq. rewrite Hcfg. exact Ha. }
  split; [congruence|].
  rewrite media_next_unfold, Hm, Hex, (project_located _ _ bp), Hm by exact Hloc.
  now destruct (findByAlias_Some _ _ _ Ha) as [_ ->].
Qed.

Lemma print_reported_as_configured_breakpoint_witness :
  media_next (new Samples.registry Samples.watcher Samples.print_sm)
             (MediaChange.new true "print")
  = Some (MediaChange.mk true "(min-width:600px)" "sm" None).
Proof.
  apply (print_reported_as_configured_breakpoint
           (new Samples.registry Samples.watcher Samples.print_sm)
           (MediaChange.new true "print") "sm" Samples.sm);
    reflexivity.
Defined.

(** C7, as stated, fails.  With [printWithBreakpoint] naming an alias the
    registry does not have, an activation of ['print'] is not emitted when a
    registered overlapping breakpoint has the media query ['print'] and the
    flag has its initial value. *)
Lemma print_unknown_alias_dropped_counterexample :
  let o := new Samples.registry_paper_wide Samples.watcher Samples.print_unknown in
  printWithBreakpoint (layoutConfig o) = Some "tablet"
  /\ BreakPointRegistry.findByAlias (breakpoints o) "tablet" = None
  /\ media_next o (MediaChange.new true "print") = None
  /\ emitted o [Next (MediaChange.new true "print")] = [].
Proof. repeat split; reflexivity. Qed.

(** C7 (amended).  When [printWithBreakpoint] names an alias that is not
    in the registry, an activation of the literal query ['print'] that
    passes the overlap filter is emitted as it arrived: its query is still
    ['print'] and no alias is written on it.  The pipe is a total function,
    so nothing is raised. *)
Theorem print_without_breakpoint_is_passed_raw
    (o : MediaObserver) (change : MediaChange.t) (a : string) :
  printWithBreakpoint (layoutConfig o) = Some a ->
  BreakPointRegistry.findByAlias (breakpoints o) a = None ->
  MediaChange.mediaQuery change = "print" ->
  MediaChange.matches change = true ->
  excludeOverlaps o change = true ->
  media_next o change = Some change
  /\ emitted o [Next change] = [change].
Proof.
  intros Hcfg Ha Hq Hm Hex.
  assert (Hnext : media_next o change = Some change).
  { rewrite media_next_unfold, Hm, Hex, project_not_located; [reflexivity|].
    rewrite locate_print by exact Hq. rewrite Hcfg. exact Ha. }
  split; [exact Hnext|]. unfold emitted. simpl. now rewrite Hnext.
Qed.

Lemma print_without_breakpoint_is_passed_raw_witness :
  emitted (new Samples.registry Samples.watcher Samples.print_unknown)
          [Next (MediaChange.new true "print")]
  = [MediaChange.mk true "print" "" None].
Proof.
  apply (print_without_breakpoint_is_passed_raw
           (new Samples.registry Samples.watcher Samples.print_unknown)
           (MediaChange.new true "print") "tablet");
    reflexivity.
Defined.

Lemma media_pass_next (o : MediaObserver) (c : MediaChange.t) :
  snd (media_pass o c) = media_next o c.
Proof.
  rewrite media_next_unfold. unfold media_pass.
  destruct (MediaChange.matches c); [|reflexivity].
  destruct (excludeOverlaps o c); [|reflexivity].
  now destruct (project o c).
Qed.

(** C10, as stated, fails, in two ways.
    (1) ['print'] is not a registry query, the flag is [true] and
    [printWithBreakpoint] names the overlapping ["gt-sm"].  The change
    object is pushed to two subscriptions: the first receives the
    announcement, and its [map] stage leaves the query of ["gt-sm"] on the
    object; the overlap filter of the second looks that query up and drops
    the activation.
    (2) Where ['print'] is itself the query of a registered overlapping
    breakpoint and the flag is [true], the filter drops the activation at
    its first pass. *)
Lemma print_activation_dropped_counterexample :
  (let o := new Samples.registry Samples.watcher Samples.print_gt_sm in
   let change := MediaChange.new true "print" in
   BreakPointRegistry.findByQuery (breakpoints o) "print" = None
   /\ filterOverlaps o = true
   /\ BreakPointRegistry.findByAlias (breakpoints o) "gt-sm" = Some Samples.gt_sm
   /\ BreakPoint.overlapping Samples.gt_sm = true
   /\ fst (media_pass o change) = MediaChange.new true "(min-width:960px)"
   /\ excludeOverlaps o (fst (media_pass o change)) = false
   /\ multicast o 2 change
      = [Some (MediaChange.mk true "(min-width:960px)" "gt-sm" (Some 7%Z)); None])
  /\ (let o := new Samples.registry_paper_wide Samples.watcher Variants.print_paper in
      let change := MediaChange.new true "print" in
      filterOverlaps o = true
      /\ excludeOverlaps o change = false
      /\ media_next o change = None
      /\ multicast o 1 change = [None]).
Proof. repeat split; reflexivity. Qed.

(** C10 (amended).  An activation that reaches the overlap filter carrying
    the literal query ['print'], as it does at the first subscription the
    watcher pushes it to, is not dropped unless ['print'] is itself the
    query of a registered overlapping breakpoint while the flag is [true].
    So with ['print'] unregistered it passes whatever the flag, also when
    [printWithBreakpoint] names an overlapping breakpoint: the filter looks
    up the query the object carries at that moment, and the substitution is
    made afterwards, in the [map] stage.  Nothing is said of what later
    subscriptions receive once that stage has written on the object. *)
Theorem print_passes_filter_before_substitution
    (o : MediaObserver) (change : MediaChange.t) :
  MediaChange.mediaQuery change = "print" ->
  MediaChange.matches change = true ->
  (forall bp : BreakPoint.t,
      BreakPointRegistry.findByQuery (breakpoints o) "print" = Some bp ->
      filterOverlaps o && BreakPoint.overlapping bp = false) ->
  excludeOverlaps o change = true
  /\ media_next o change = Some (mergeAlias change (locate o change))
  /\ (forall bp : BreakPoint.t,
        locate o change = Some bp ->
        media_next o change =
        Some (MediaChange.mk true (BreakPoint.mediaQuery bp) (BreakPoint.alias bp)
                             (BreakPoint.priority bp)))
  /\ (forall n : nat,
        exists later : list (option MediaChange.t),
          multicast o (S n) change
          = Some (mergeAlias change (locate o change)) :: later).
Proof.
  intros Hq Hm Hreg.
  assert (Hex : excludeOverlaps o change = true).
  { unfold excludeOverlaps. rewrite Hq.
    destruct (BreakPointRegistry.findByQuery (breakpoints o) "print") as [bp|] eqn:Hp;
      [|reflexivity].
    now rewrite (Hreg bp eq_refl). }
  assert (Hnext : media_next o change = Some (mergeAlias change (locate o change))).
  { rewrite media_next_unfold, Hm, Hex. unfold project. simpl.
    destruct (locate o change) as [bp|]; reflexivity. }
  split; [exact Hex|]. split; [exact Hnext|]. split.
  - intros bp Hloc.
    now rewrite media_next_unfold, Hm, Hex, (project_located _ _ bp), Hm by exact Hloc.
  - intros n. simpl.
    pose proof (media_pass_next o change) as Hpass. rewrite Hnext in Hpass.
    destruct (media_pass o change) as [change' out]. simpl in Hpass. subst out.
    now exists (multicast o n change').
Qed.

(** The configured breakpoint ["gt-sm"] is overlapping and the flag is
    [true]: its own activation is dropped, the one of ['print'] is not. *)
Lemma print_passes_filter_before_substitution_witness :
  let o := new Samples.registry Samples.watcher Samples.print_gt_sm in
  filterOverlaps o = true
  /\ BreakPoint.overlapping Samples.gt_sm = true
  /\ media_next o (MediaChange.new true "(min-width:960px)") = None
  /\ media_next o (MediaChange.new true "print")
     = Some (MediaChange.mk true "(min-width:960px)" "gt-sm" (Some 7%Z)).
Proof.
  destruct (print_passes_filter_before_substitution
              (new Samples.registry Samples.watcher Samples.print_gt_sm)
              (MediaChange.new true "print") eq_refl eq_refl
              ltac:(intros bp H; discriminate H))
    as (_ & _ & Hbp & _).
  split; [reflexivity|]. split; [reflexivity|]. split; [reflexivity|].
  apply (Hbp Samples.gt_sm). reflexivity.
Defined.

(** The [map] stage writes the substituted query on the object it received.
    Were that same object pushed through the pipe again, the overlap filter
    would look up the substituted query: here the one of the overlapping
    ["gt-sm"], which is dropped while the flag is [true]. *)
Remark substituted_source_is_filtered_as_its_breakpoint :
  let o := new Samples.registry Samples.watcher Samples.print_gt_sm in
  let change := MediaChange.new true "print" in
  fst (project o change) = MediaChange.new true "(min-width:960px)"
  /\ media_next o (fst (project o change)) = None.
Proof. split; reflexivity. Qed.

(** ** Unregistered queries *)

(** C6, as stated, fails.  ['print'] is not a query of the registry, yet
    with [printWithBreakpoint = "sm"] its activation is emitted with the
    alias ["sm"] and the query of ["sm"], not with an empty alias and the
    query it arrived with. *)
Lemma unregistered_print_counterexample :
  let o := new Samples.registry Samples.watcher Samples.print_sm in
  let change := MediaChange.new true "print" in
  BreakPointRegistry.findByQuery (breakpoints o) (MediaChange.mediaQuery change) = None
  /\ media_next o change = Some (MediaChange.mk true "(min-width:600px)" "sm" None)
  /\ ~ (exists e, media_next o change = Some e
                  /\ MediaChange.mqAlias e = ""
                  /\ MediaChange.mediaQuery e = MediaChange.mediaQuery change).
Proof.
  repeat split; try reflexivity.
  intros (e & He & Ha & _). vm_compute in He. injection He as <-. discriminate Ha.
Qed.

(** C6 (amended).  An activation whose query is not in the registry
    passes the overlap filter whatever the flag, and exactly one value is
    emitted for it.  Unless the query is the literal ['print'] and the
    configured [printWithBreakpoint] alias resolves in the registry, that
    value is the change as it arrived: same query, and the alias it came
    with, which is empty for a change built by the watcher. *)
Theorem unregistered_query_passes_through (o : MediaObserver) (change : MediaChange.t) :
  MediaChange.matches change = true ->
  BreakPointRegistry.findByQuery (breakpoints o) (MediaChange.mediaQuery change) = None ->
  (forall b : bool, excludeOverlaps (set_filterOverlaps b o) change = true)
  /\ (exists e : MediaChange.t, emitted o [Next change] = [e])
  /\ (~ print_substituted o change ->
      emitted o [Next change] = [change]
      /\ (MediaChange.mqAlias change = "" ->
          forall e, media_next o change = Some e ->
                    MediaChange.mqAlias e = ""
                    /\ MediaChange.mediaQuery e = MediaChange.mediaQuery change)).
Proof.
  intros Hm Hnone.
  assert (Hex : excludeOverlaps o change = true) by now apply excludeOverlaps_not_found.
  assert (Hnext : media_next o change = Some (snd (project o change))).
  { now rewrite media_next_unfold, Hm, Hex. }
  split; [|split].
  - intros b. now apply excludeOverlaps_not_found.
  - exists (snd (project o change)). unfold emitted. simpl. now rewrite Hnext.
  - intros Hns.
    assert (Hloc : locate o change = None).
    { unfold locate.
      destruct (String.eqb_spec (MediaChange.mediaQuery change) "print") as [Hp|Hp];
        [|exact Hnone].
      destruct (printWithBreakpoint (layoutConfig o)
                  ≫= BreakPointRegistry.findByAlias (breakpoints o)) as [bp|] eqn:Hbp;
        [|reflexivity].
      exfalso. apply Hns. split; [exact Hp|]. rewrite Hbp. now exists bp. }
    rewrite project_not_located in Hnext by exact Hloc. simpl in Hnext.
    split.
    + unfold emitted. simpl. now rewrite Hnext.
    + intros Halias e He. rewrite Hnext in He. injection He as <-. auto.
Qed.

Lemma unregistered_query_passes_through_witness :
  emitted (new Samples.registry Samples.watcher Samples.print_sm)
          [Next (MediaChange.new true "(orientation:landscape)")]
  = [MediaChange.mk true "(orientation:landscape)" "" None].
Proof.
  destruct (unregistered_query_passes_through
              (new Samples.registry Samples.watcher Samples.print_sm)
              (MediaChange.new true "(orientation:landscape)")
              eq_refl eq_refl) as (_ & _ & H).
  apply H. intros [Hp _]. discriminate Hp.
Defined.

(** ** isActive *)

Lemma toMediaQuery_resolve (o : MediaObserver) (x : string) :
  toMediaQuery o x = resolve (breakpoints o) x.
Proof.
  unfold toMediaQuery, resolve.
  now destruct (BreakPointRegistry.findByAlias (breakpoints o) x).
Qed.

(** C5. For every argument [x], [isActive x] is the watcher's current
    match state for the query [x] resolves to: the query of the breakpoint
    with alias [x] when there is one (even if [x] is also a registered query
    string), else the query of the breakpoint registered for the query [x],
    else [x] itself.  [isActive] is a total function to [bool]: an unknown
    alias yields the watcher's answer for the literal string. *)
Theorem isActive_resolves_alias_first (o : MediaObserver) (x : string) :
  isActive o x = MatchMedia.isActive (mediaWatcher o) (resolve (breakpoints o) x)
  /\ (forall bp : BreakPoint.t,
        BreakPointRegistry.findByAlias (breakpoints o) x = Some bp ->
        isActive o x = MatchMedia.isActive (mediaWatcher o) (BreakPoint.mediaQuery bp))
  /\ (BreakPointRegistry.findByAlias (breakpoints o) x = None ->
      (forall bp : BreakPoint.t,
          BreakPointRegistry.findByQuery (breakpoints o) x = Some bp ->
          isActive o x = MatchMedia.isActive (mediaWatcher o) (BreakPoint.mediaQuery bp))
      /\ (BreakPointRegistry.findByQuery (breakpoints o) x = None ->
          isActive o x = MatchMedia.isActive (mediaWatcher o) x)).
Proof.
  unfold isActive. rewrite toMediaQuery_resolve. unfold resolve.
  split; [reflexivity|]. split.
  - now intros bp ->.
  - intros ->. split.
    + now intros bp ->.
    + now intros ->.
Qed.

Lemma isActive_resolves_alias_first_witness :
  let o := new Samples.registry Samples.watcher Samples.no_print in
  isActive o "sm" = true
  /\ isActive o "(min-width:600px)" = true
  /\ isActive o "tablet" = MatchMedia.isActive (mediaWatcher o) "tablet".
Proof.
  split; [|split].
  - apply (proj1 (proj2 (isActive_resolves_alias_first
                           (new Samples.registry Samples.watcher Samples.no_print) "sm"))
                 Samples.sm).
    reflexivity.
  - reflexivity.
  - apply (proj2 (proj2 (isActive_resolves_alias_first
                           (new Samples.registry Samples.watcher Samples.no_print) "tablet")));
      reflexivity.
Defined.

(** ** The watch-list *)

Lemma truthy_configured (cfg : LayoutConfigOptions) :
  truthy (printWithBreakpoint cfg) = true <-> print_configured cfg.
Proof.
  unfold truthy, print_configured.
  destruct (printWithBreakpoint cfg) as [s|].
  - destruct (String.eqb_spec s "") as [->|Hne]; simpl; split.
    + discriminate.
    + intros (a & [= <-] & Hne). now destruct Hne.
    + intros _. now exists s.
    + reflexivity.
  - split; [discriminate|]. intros (a & Ha & _). discriminate Ha.
Qed.

(** C8. The constructor hands the watcher one list: the media queries of
    the registry items in registry order, followed by ['print'] exactly when
    a (non-empty) [printWithBreakpoint] alias is configured.  No later
    action (a delivered change, an assignment of the flag) registers
    anything else: after any trace the watcher's log is the initial log
    plus that one list. *)
Theorem watch_list_registered_once
    (reg : BreakPointRegistry.t) (w : MatchMedia.t) (cfg : LayoutConfigOptions)
    (acts : list Action) :
  let queries := map BreakPoint.mediaQuery (BreakPointRegistry.items reg) in
  let o := fst (run (new reg w cfg) acts) in
  (print_configured cfg ->
   MatchMedia.observed (mediaWatcher o) = MatchMedia.observed w ++ [queries ++ ["print"]])
  /\ (~ print_configured cfg ->
      MatchMedia.observed (mediaWatcher o) = MatchMedia.observed w ++ [queries])
  /\ (last (watchList reg cfg) = Some "print" /\ watchList reg cfg = queries ++ ["print"]
      \/ watchList reg cfg = queries).
Proof.
  intros queries o. subst o.
  destruct (run_fields acts (new reg w cfg)) as (_ & -> & _). simpl.
  unfold watchList, addPrintListener. fold queries.
  pose proof (truthy_configured cfg) as Ht.
  destruct (truthy (printWithBreakpoint cfg)).
  - split; [reflexivity|]. split.
    + intros Hn. destruct Hn. now apply Ht.
    + left. split; [|reflexivity]. now rewrite last_snoc.
  - split; [|split].
    + intros Hc. apply Ht in Hc. discriminate Hc.
    + reflexivity.
    + now right.
Qed.

Lemma watch_list_registered_once_witness :
  MatchMedia.observed
    (mediaWatcher (fst (run (new Samples.registry Samples.watcher Samples.print_sm)
                            [Next (MediaChange.new true "print");
                             SetFilterOverlaps false;
                             Next (MediaChange.new true "(min-width:960px)")])))
  = [["(max-width:599px)"; "(min-width:600px)";
      "(min-width:600px) and (max-width:5000px)"; "(min-width:960px)"; "print"]]
  /\ MatchMedia.observed
       (mediaWatcher (fst (run (new Samples.registry Samples.watcher Samples.print_empty)
                               [Next (MediaChange.new true "print")])))
     = [["(max-width:599px)"; "(min-width:600px)";
         "(min-width:600px) and (max-width:5000px)"; "(min-width:960px)"]].
Proof.
  split.
  - apply (proj1 (watch_list_registered_once
                    Samples.registry Samples.watcher Samples.print_sm
                    [Next (MediaChange.new true "print");
                     SetFilterOverlaps false;
                     Next (MediaChange.new true "(min-width:960px)")])).
    exists "sm". split; [reflexivity|discriminate].
  - apply (proj1 (proj2 (watch_list_registered_once
                    Samples.registry Samples.watcher Samples.print_empty
                    [Next (MediaChange.new true "print")]))).
    intros (a & [= <-] & Hne). now apply Hne.
Defined.

(** ** Order of emission *)

Lemma image_of_flag (o : MediaObserver) (b : bool) (c e : MediaChange.t) :
  image_of (set_filterOverlaps b o) c e -> image_of o c e.
Proof. intros [b' H]. now exists b'. Qed.

Lemma image_of_here (o : MediaObserver) (c e : MediaChange.t) :
  media_next o c = Some e -> image_of o c e.
Proof. intros H. exists (filterOverlaps o). now destruct o. Qed.

Lemma emitted_ordered_image (acts : list Action) (o : MediaObserver) :
  exists kept : list MediaChange.t,
    sublist kept (changes acts) /\ Forall2 (image_of o) kept (emitted o acts).
Proof.
  revert o. induction acts as [|a acts IH]; intros o.
  - exists []. split; [constructor|]. constructor.
  - rewrite emitted_cons. destruct a as [b|c]; simpl.
    + destruct (IH (set_filterOverlaps b o)) as (kept & Hsub & Hall).
      exists kept. split; [exact Hsub|].
      eapply Forall2_impl; [exact Hall|]. intros c e. apply image_of_flag.
    + destruct (IH o) as (kept & Hsub & Hall).
      destruct (media_next o c) as [e|] eqn:He; simpl.
      * exists (c :: kept). split; [now constructor|].
        constructor; [now apply image_of_here|exact Hall].
      * exists kept. split; [now constructor|exact Hall].
Qed.

(** C9. Along any trace, the values emitted are the images, one for one
    and in the same order, of a subsequence of the raw changes in their
    order of arrival.  So a raw change yields at most one value, nothing is
    reordered or merged, and what a prefix of the trace emitted stays a
    prefix of what the whole trace emits. *)
Theorem emissions_preserve_arrival_order (o : MediaObserver) (acts : list Action) :
  (exists kept : list MediaChange.t,
      sublist kept (changes acts) /\ Forall2 (image_of o) kept (emitted o acts))
  /\ (forall change : MediaChange.t, length (snd (step o (Next change))) <= 1)
  /\ length (emitted o acts) <= length (changes acts)
  /\ (forall more : list Action,
        emitted o (acts ++ more) = emitted o acts ++ emitted (fst (run o acts)) more).
Proof.
  pose proof (emitted_ordered_image acts o) as (kept & Hsub & Hall).
  split; [now exists kept|]. split; [|split].
  - intros change. simpl. destruct (media_next o change); simpl; lia.
  - rewrite <- (Forall2_length _ _ _ Hall). now apply sublist_length.
  - intros more. apply emitted_app.
Qed.

(** * Further properties of the observer *)

(** ** Resolution of the argument of [isActive] *)

Lemma findByAlias_registered (reg : BreakPointRegistry.t) (B : BreakPoint.t) :
  unique_aliases reg ->
  In B (BreakPointRegistry.items reg) ->
  BreakPointRegistry.findByAlias reg (BreakPoint.alias B) = Some B.
Proof.
  unfold unique_aliases, BreakPointRegistry.findByAlias.
  destruct reg as [l]; simpl.
  induction l as [|bp l IH]; intros Hnd Hin; [destruct Hin|].
  simpl in Hnd. apply List.NoDup_cons_iff in Hnd as [Hnotin Hnd].
  simpl. destruct Hin as [->|Hin].
  - now rewrite String.eqb_refl.
  - destruct (String.eqb_spec (BreakPoint.alias bp) (BreakPoint.alias B)) as [Heq|Hne].
    + exfalso. apply Hnotin. rewrite Heq. now apply in_map.
    + now apply IH.
Qed.

Lemma toMediaQuery_not_alias (o : MediaObserver) (x : string) :
  BreakPointRegistry.findByAlias (breakpoints o) x = None ->
  toMediaQuery o x = x.
Proof.
  intros Ha. unfold toMediaQuery. simpl. rewrite Ha.
  destruct (BreakPointRegistry.findByQuery (breakpoints o) x) as [bp|] eqn:Hq;
    [|reflexivity].
  now destruct (findByQuery_Some _ _ _ Hq) as [_ ->].
Qed.

(** X1. On a string that is not an alias of the registry, [toMediaQuery] is
    the identity, whether or not the string is a registered query: the
    breakpoint [findByQuery] finds has that very string as its query.  So
    [isActive] asks the watcher about the argument itself. *)
Theorem toMediaQuery_identity_off_aliases (o : MediaObserver) (x : string) :
  BreakPointRegistry.findByAlias (breakpoints o) x = None ->
  toMediaQuery o x = x
  /\ isActive o x = MatchMedia.isActive (mediaWatcher o) x.
Proof.
  intros Ha. unfold isActive. now rewrite toMediaQuery_not_alias.
Qed.

Lemma toMediaQuery_identity_off_aliases_witness :
  toMediaQuery (new Samples.registry Samples.watcher Samples.no_print)
               "(min-width:960px)" = "(min-width:960px)"
  /\ toMediaQuery (new Samples.registry Samples.watcher Samples.no_print)
                  "(orientation:landscape)" = "(orientation:landscape)".
Proof.
  split.
  - apply (toMediaQuery_identity_off_aliases
             (new Samples.registry Samples.watcher Samples.no_print)
             "(min-width:960px)"). reflexivity.
  - apply (toMediaQuery_identity_off_aliases
             (new Samples.registry Samples.watcher Samples.no_print)
             "(orientation:landscape)"). reflexivity.
Defined.

(** X2. In a registry with unique aliases, the alias of a registered
    breakpoint resolves to that breakpoint's query, and [isActive] on the
    alias is the watcher's state for that query. *)
Theorem alias_resolves_to_its_query (o : MediaObserver) (bp : BreakPoint.t) :
  unique_aliases (breakpoints o) ->
  In bp (BreakPointRegistry.items (breakpoints o)) ->
  toMediaQuery o (BreakPoint.alias bp) = BreakPoint.mediaQuery bp
  /\ isActive o (BreakPoint.alias bp)
     = MatchMedia.isActive (mediaWatcher o) (BreakPoint.mediaQuery bp).
Proof.
  intros Hu Hin.
  assert (H : toMediaQuery o (BreakPoint.alias bp) = BreakPoint.mediaQuery bp).
  { unfold toMediaQuery. simpl. now rewrite findByAlias_registered. }
  unfold isActive. now rewrite H.
Qed.

Lemma alias_resolves_to_its_query_witness :
  isActive (new Samples.registry Samples.watcher Samples.no_print) "gt-sm"
  = MatchMedia.isActive Samples.watcher "(min-width:960px)".
Proof.
  apply (alias_resolves_to_its_query
           (new Samples.registry Samples.watcher Samples.no_print) Samples.gt_sm).
  - repeat constructor; simpl; intuition discriminate.
  - simpl. auto.
Defined.

(** X3. When no alias of the registry is also a registered query string,
    resolving twice is resolving once. *)
Theorem toMediaQuery_idempotent (o : MediaObserver) (x : string) :
  aliases_apart_from_queries (breakpoints o) ->
  toMediaQuery o (toMediaQuery o x) = toMediaQuery o x.
Proof.
  intros Hapart.
  destruct (BreakPointRegistry.findByAlias (breakpoints o) x) as [bp|] eqn:Ha.
  - assert (Hx : toMediaQuery o x = BreakPoint.mediaQuery bp).
    { unfold toMediaQuery. simpl. now rewrite Ha. }
    rewrite Hx. apply toMediaQuery_not_alias.
    destruct (BreakPointRegistry.findByAlias (breakpoints o) (BreakPoint.mediaQuery bp))
      as [bp'|] eqn:Ha'; [|reflexivity].
    exfalso.
    destruct (findByAlias_Some _ _ _ Ha) as [Hin _].
    destruct (findByAlias_Some _ _ _ Ha') as [Hin' Heq].
    exact (Hapart bp' bp Hin' Hin Heq).
  - rewrite (toMediaQuery_not_alias o x Ha). now apply toMediaQuery_not_alias.
Qed.

Lemma toMediaQuery_idempotent_witness :
  toMediaQuery (new Samples.registry Samples.watcher Samples.no_print)
    (toMediaQuery (new Samples.registry Samples.watcher Samples.no_print) "gt-xs")
  = toMediaQuery (new Samples.registry Samples.watcher Samples.no_print) "gt-xs".
Proof.
  apply (toMediaQuery_idempotent
           (new Samples.registry Samples.watcher Samples.no_print) "gt-xs").
  intros bp bp' Hin Hin'. simpl in Hin, Hin'.
  intuition (subst; discriminate).
Defined.

(** The condition of X3 is needed: where the alias ["b"] is also the query
    of ["a"], resolving ["a"] gives ["b"] and resolving that gives ["c"]. *)
Remark toMediaQuery_chain :
  let o := new MoreSamples.registry_chain Samples.watcher Samples.no_print in
  toMediaQuery o "a" = "b" /\ toMediaQuery o (toMediaQuery o "a") = "c".
Proof. split; reflexivity. Qed.

(** ** The [map] stage on changes other than ['print'] *)

Lemma set_own_mediaQuery (c : MediaChange.t) :
  MediaChange.set_mediaQuery (MediaChange.mediaQuery c) c = c.
Proof. now destruct c. Qed.

Lemma project_source_not_print (o : MediaObserver) (c : MediaChange.t) :
  MediaChange.mediaQuery c <> "print" -> fst (project o c) = c.
Proof.
  intros Hne. unfold project. rewrite locate_not_print by exact Hne.
  destruct (BreakPointRegistry.findByQuery (breakpoints o) (MediaChange.mediaQuery c))
    as [bp|] eqn:Hq; simpl; [|reflexivity].
  destruct (findByQuery_Some _ _ _ Hq) as [_ ->]. apply set_own_mediaQuery.
Qed.

(** X4. For a change whose query is not ['print'], the assignment
    [change.mediaQuery = bp.mediaQuery] of the [map] stage leaves the object
    it was handed as it was: the breakpoint was found by that same query.
    Only a ['print'] change is altered in place. *)
Theorem map_stage_alters_only_print (o : MediaObserver) (change : MediaChange.t) :
  MediaChange.mediaQuery change <> "print" ->
  fst (project o change) = change
  /\ MediaChange.mediaQuery (snd (project o change)) = MediaChange.mediaQuery change.
Proof.
  intros Hne. split; [now apply project_source_not_print|].
  unfold project. rewrite locate_not_print by exact Hne.
  destruct (BreakPointRegistry.findByQuery (breakpoints o) (MediaChange.mediaQuery change))
    as [bp|] eqn:Hq; simpl; [|reflexivity].
  now destruct (findByQuery_Some _ _ _ Hq) as [_ ->].
Qed.

Lemma map_stage_alters_only_print_witness :
  fst (project (new Samples.registry Samples.watcher Samples.print_sm)
               (MediaChange.new true "(min-width:960px)"))
  = MediaChange.new true "(min-width:960px)".
Proof.
  apply (map_stage_alters_only_print
           (new Samples.registry Samples.watcher Samples.print_sm)
           (MediaChange.new true "(min-width:960px)")).
  discriminate.
Defined.

(** X5. Annotation is idempotent away from ['print']: a value the pipe
    emitted for a change whose query is not ['print'] is emitted again,
    unchanged, when it is itself pushed through the pipe. *)
Theorem media_next_idempotent (o : MediaObserver) (change e : MediaChange.t) :
  MediaChange.mediaQuery change <> "print" ->
  media_next o change = Some e ->
  media_next o e = Some e.
Proof.
  intros Hne He.
  destruct (media_next_Some _ _ _ He) as (Hm & Hex & ->).
  pose proof (locate_not_print o change Hne) as Hloc.
  destruct (BreakPointRegistry.findByQuery (breakpoints o) (MediaChange.mediaQuery change))
    as [bp|] eqn:Hq.
  - destruct (findByQuery_Some _ _ _ Hq) as [_ Hbq].
    assert (Hq' : BreakPointRegistry.findByQuery (breakpoints o) (BreakPoint.mediaQuery bp)
                  = Some bp) by now rewrite Hbq.
    rewrite (project_located _ _ bp), Hm by exact Hloc.
    rewrite (excludeOverlaps_found _ _ bp) in Hex by exact Hq.
    rewrite media_next_unfold.
    rewrite (excludeOverlaps_found _ _ bp) by exact Hq'.
    rewrite Hex. cbn [MediaChange.matches].
    rewrite (project_located _ _ bp); [reflexivity|].
    rewrite locate_not_print; cbn [MediaChange.mediaQuery];
      [exact Hq'|now rewrite Hbq].
  - rewrite project_not_located in * by exact Hloc. exact He.
Qed.

Lemma media_next_idempotent_witness :
  media_next (new Samples.registry Samples.watcher Samples.print_sm)
             (MediaChange.mk true "(min-width:600px)" "sm" None)
  = Some (MediaChange.mk true "(min-width:600px)" "sm" None).
Proof.
  apply (media_next_idempotent
           (new Samples.registry Samples.watcher Samples.print_sm)
           (MediaChange.new true "(min-width:600px)")).
  - discriminate.
  - reflexivity.
Defined.

(** ** What the flag does and does not do *)

Lemma set_filterOverlaps_twice (b b' : bool) (o : MediaObserver) :
  set_filterOverlaps b' (set_filterOverlaps b o) = set_filterOverlaps b' o.
Proof. reflexivity. Qed.

Lemma media_next_flag_off (o : MediaObserver) (c : MediaChange.t) :
  filterOverlaps o = false ->
  media_next o c = if MediaChange.matches c then Some (snd (project o c)) else None.
Proof.
  intros Hoff. rewrite media_next_unfold.
  destruct (MediaChange.matches c); [|reflexivity].
  unfold excludeOverlaps. rewrite Hoff.
  now destruct (BreakPointRegistry.findByQuery (breakpoints o) (MediaChange.mediaQuery c)).
Qed.

Lemma media_next_flag_on_off (o : MediaObserver) (c e : MediaChange.t) :
  media_next (set_filterOverlaps true o) c = Some e ->
  media_next (set_filterOverlaps false o) c = Some e.
Proof.
  intros He. apply media_next_Some in He as (Hm & _ & ->).
  rewrite media_next_flag_off by reflexivity. now rewrite Hm.
Qed.

(** X6. The overlap filter only removes: for any sequence of raw changes,
    what is emitted with the flag [true] is a subsequence, values and order
    unchanged, of what is emitted with the flag [false]. *)
Theorem overlap_filter_only_removes (o : MediaObserver) (cs : list MediaChange.t) :
  sublist (emitted (set_filterOverlaps true o) (map Next cs))
          (emitted (set_filterOverlaps false o) (map Next cs)).
Proof.
  induction cs as [|c cs IH]; [constructor|].
  cbn [map]. rewrite !emitted_cons. cbn [step fst snd].
  destruct (media_next (set_filterOverlaps true o) c) as [e|] eqn:Hon.
  - rewrite (media_next_flag_on_off _ _ _ Hon). simpl. now constructor.
  - destruct (media_next (set_filterOverlaps false o) c) as [e|]; simpl;
      [now constructor|exact IH].
Qed.

Lemma excludeOverlaps_no_overlapping (o : MediaObserver) (c : MediaChange.t) :
  no_overlapping (breakpoints o) -> excludeOverlaps o c = true.
Proof.
  intros Hno. unfold excludeOverlaps.
  destruct (BreakPointRegistry.findByQuery (breakpoints o) (MediaChange.mediaQuery c))
    as [bp|] eqn:Hq; [|reflexivity].
  destruct (findByQuery_Some _ _ _ Hq) as [Hin _].
  unfold no_overlapping in Hno. rewrite List.Forall_forall in Hno.
  rewrite (Hno bp Hin). now rewrite andb_false_r.
Qed.

Lemma media_next_no_overlapping (o : MediaObserver) (b : bool) (c : MediaChange.t) :
  no_overlapping (breakpoints o) ->
  media_next (set_filterOverlaps b o) c = media_next o c.
Proof.
  intros Hno. rewrite !media_next_unfold.
  rewrite !excludeOverlaps_no_overlapping by exact Hno. reflexivity.
Qed.

Lemma emitted_no_overlapping (acts : list Action) (o : MediaObserver) (b : bool) :
  no_overlapping (breakpoints o) ->
  emitted (set_filterOverlaps b o) acts = emitted o acts.
Proof.
  revert o b. induction acts as [|a acts IH]; intros o b Hno; [reflexivity|].
  rewrite !emitted_cons. destruct a as [b'|c]; cbn [step fst snd].
  - rewrite set_filterOverlaps_twice. reflexivity.
  - rewrite media_next_no_overlapping by exact Hno. f_equal. now apply IH.
Qed.

(** X7. With no overlapping breakpoint in the registry the flag has no
    effect: a trace emits what its raw changes alone emit, whatever
    assignments of the flag are interleaved with them. *)
Theorem flag_is_inert_without_overlaps (o : MediaObserver) (acts : list Action) :
  no_overlapping (breakpoints o) ->
  emitted o acts = emitted o (map Next (changes acts)).
Proof.
  intros Hno. revert o Hno. induction acts as [|a acts IH]; intros o Hno; [reflexivity|].
  destruct a as [b|c].
  - rewrite emitted_cons. cbn [step fst snd app].
    rewrite emitted_no_overlapping by exact Hno.
    change (changes (SetFilterOverlaps b :: acts)) with (changes acts).
    now apply IH.
  - change (changes (Next c :: acts)) with (c :: changes acts).
    cbn [map]. rewrite !emitted_cons. cbn [step fst snd].
    f_equal. now apply IH.
Qed.

Lemma flag_is_inert_without_overlaps_witness :
  emitted (new MoreSamples.registry_plain Samples.watcher Samples.no_print)
          [Next (MediaChange.new true "(min-width:600px)");
           SetFilterOverlaps false;
           Next (MediaChange.new true "(max-width:599px)");
           SetFilterOverlaps true;
           Next (MediaChange.new true "(min-width:600px)")]
  = [MediaChange.mk true "(min-width:600px)" "sm" None;
     MediaChange.mk true "(max-width:599px)" "xs" None;
     MediaChange.mk true "(min-width:600px)" "sm" None].
Proof.
  rewrite (flag_is_inert_without_overlaps
             (new MoreSamples.registry_plain Samples.watcher Samples.no_print)).
  - reflexivity.
  - repeat constructor.
Defined.

(** X8. With the flag [false], every activation is announced: a sequence
    of raw changes emits one value per change with [matches = true], in
    order, and nothing else. *)
Theorem flag_off_announces_every_activation
    (o : MediaObserver) (cs : list MediaChange.t) :
  filterOverlaps o = false ->
  emitted o (map Next cs)
  = map (fun c => snd (project o c)) (List.filter MediaChange.matches cs)
  /\ length (emitted o (map Next cs)) = length (List.filter MediaChange.matches cs).
Proof.
  intros Hoff.
  assert (H : emitted o (map Next cs)
              = map (fun c => snd (project o c)) (List.filter MediaChange.matches cs)).
  { induction cs as [|c cs IH]; [reflexivity|].
    cbn [map List.filter]. rewrite emitted_cons. cbn [step fst snd].
    rewrite media_next_flag_off by exact Hoff.
    destruct (MediaChange.matches c); simpl; now rewrite IH. }
  split; [exact H|]. rewrite H. apply length_map.
Qed.

Lemma flag_off_announces_every_activation_witness :
  emitted (set_filterOverlaps false
             (new Samples.registry Samples.watcher Samples.no_print))
          (map Next [MediaChange.new true "(min-width:960px)";
                     MediaChange.new false "(min-width:960px)";
                     MediaChange.new true "(orientation:landscape)"])
  = [MediaChange.mk true "(min-width:960px)" "gt-sm" (Some 7%Z);
     MediaChange.mk true "(orientation:landscape)" "" None].
Proof.
  apply (flag_off_announces_every_activation
           (set_filterOverlaps false
              (new Samples.registry Samples.watcher Samples.no_print))
           [MediaChange.new true "(min-width:960px)";
            MediaChange.new false "(min-width:960px)";
            MediaChange.new true "(orientation:landscape)"]).
  reflexivity.
Defined.

(** ** Where emitted values come from *)

Lemma locate_registered (o : MediaObserver) (c : MediaChange.t) (bp : BreakPoint.t) :
  locate o c = Some bp -> In bp (BreakPointRegistry.items (breakpoints o)).
Proof.
  unfold locate.
  destruct (String.eqb (MediaChange.mediaQuery c) "print").
  - destruct (printWithBreakpoint (layoutConfig o)) as [a|]; simpl; [|discriminate].
    intros H. now destruct (findByAlias_Some _ _ _ H).
  - intros H. now destruct (findByQuery_Some _ _ _ H).
Qed.

Lemma media_next_provenance (o : MediaObserver) (c e : MediaChange.t) :
  media_next o c = Some e ->
  e = c \/ exists bp, In bp (BreakPointRegistry.items (breakpoints o))
                      /\ e = announcement bp.
Proof.
  intros He. apply media_next_Some in He as (Hm & _ & ->).
  destruct (locate o c) as [bp|] eqn:Hloc.
  - right. exists bp. split; [now apply (locate_registered o c)|].
    now rewrite (project_located _ _ bp), Hm.
  - left. now rewrite project_not_located.
Qed.

(** X9. The pipe invents nothing: along any trace, every emitted value is
    either one of the raw changes of the trace, unchanged, or the
    announcement of a registered breakpoint, carrying that breakpoint's
    stored query, alias and priority. *)
Theorem emitted_values_provenance (o : MediaObserver) (acts : list Action) :
  Forall (fun e =>
            In e (changes acts)
            \/ exists bp, In bp (BreakPointRegistry.items (breakpoints o))
                          /\ e = announcement bp)
         (emitted o acts).
Proof.
  revert o. induction acts as [|a acts IH]; intros o; [constructor|].
  rewrite emitted_cons. apply Forall_app. split.
  - destruct a as [b|c]; simpl; [constructor|].
    destruct (media_next o c) as [e|] eqn:He; simpl; [|constructor].
    constructor; [|constructor].
    destruct (media_next_provenance _ _ _ He) as [->|Hbp]; [left; now left|now right].
  - eapply Forall_impl; [apply IH|]. intros e [Hin|Hbp].
    + left. destruct a as [b|c]; [exact Hin|now right].
    + right. destruct (step_fields o a) as (Hb & _ & _). now rewrite <- Hb.
Qed.

(** ** What is watched *)

(** X10. A query is handed to the watcher exactly when it is the media
    query of a registered breakpoint, or it is ['print'] and a non-empty
    [printWithBreakpoint] alias is configured; the list has one entry per
    registry item, plus at most one. *)
Theorem watchList_membership
    (reg : BreakPointRegistry.t) (cfg : LayoutConfigOptions) (q : string) :
  (In q (watchList reg cfg) <->
   (exists bp, In bp (BreakPointRegistry.items reg) /\ BreakPoint.mediaQuery bp = q)
   \/ (q = "print" /\ print_configured cfg))
  /\ length (BreakPointRegistry.items reg) <= length (watchList reg cfg)
     <= S (length (BreakPointRegistry.items reg)).
Proof.
  assert (Hreg : In q (map BreakPoint.mediaQuery (BreakPointRegistry.items reg)) <->
                 exists bp, In bp (BreakPointRegistry.items reg)
                            /\ BreakPoint.mediaQuery bp = q).
  { rewrite in_map_iff. split; intros (bp & H1 & H2); exists bp; auto. }
  unfold watchList, addPrintListener.
  pose proof (truthy_configured cfg) as Ht.
  destruct (truthy (printWithBreakpoint cfg)).
  - split.
    + rewrite in_app_iff, Hreg. split.
      * intros [H|[<-|[]]]; [left; exact H|]. right. split; [reflexivity|now apply Ht].
      * intros [H|[-> _]]; [left; exact H|]. right. now left.
    + rewrite length_app, length_map. simpl. lia.
  - split.
    + rewrite Hreg. split.
      * intros H. left. exact H.
      * intros [H|[_ Hc]]; [exact H|]. apply Ht in Hc. discriminate Hc.
    + rewrite length_map. lia.
Qed.
